(** * The Homa user-level API (homa_api.c): a shallow embedding

    The library is a thin layer over three system calls: [sendmsg] for every
    request and response, [ioctl] for aborting RPCs and [getsockopt] for
    peeling a per-peer socket off a listening socket.  Each API function
    fills in a control block and a message header, makes exactly one system
    call and hands the result back.

    The transport engine behind the system calls is not part of the library.
    It is a parameter of the development ([engine]); the library functions are
    programs of a small state-and-fault monad over

    - the (opaque) state of the engine,
    - the caller's memory, which holds the 64-bit cells that [uint64_t *id]
      arguments point to, and
    - the log of the system calls issued so far. *)

From Stdlib Require Import ZArith List Bool Lia.
From stdpp Require Import base decidable option list gmap.
Import ListNotations.
Local Open Scope Z_scope.

(** ** C integer types

    Values of C integer types are integers of [Z]; a conversion that can
    change the value is written out. *)

Definition wrap_unsigned (bits x : Z) : Z := x mod 2 ^ bits.

Definition wrap_signed (bits x : Z) : Z :=
  (x + 2 ^ (bits - 1)) mod 2 ^ bits - 2 ^ (bits - 1).

(** [int], [ssize_t] and [size_t] on the LP64 platforms Homa runs on. *)
Definition to_int : Z -> Z := wrap_signed 32.
Definition to_ssize_t : Z -> Z := wrap_signed 64.
Definition to_size_t : Z -> Z := wrap_unsigned 64.

Definition INT_MIN : Z := - 2 ^ 31.
Definition INT_MAX : Z := 2 ^ 31 - 1.

Definition fits_int (x : Z) : Prop := INT_MIN <= x <= INT_MAX.

(** ** Pointers and the structures of the system-call interface

    A pointer to memory that the library only passes on ([void *] message
    buffers) or writes through ([uint64_t *id]) is an address, with [NULL]
    the address 0.  A pointer to a structure that is only read
    ([const struct sockaddr *], the [iovec] array) is modelled by the
    structure it points to, and [NULL] by [None]. *)

Definition ptr : Type := Z.
Definition NULL : ptr := 0.

Record sockaddr : Type := { sa_family : Z; sa_data : list Z }.

Record iovec : Type := { iov_base : ptr; iov_len : Z }.

(** [struct homa_sendmsg_args]: the control block of every send. *)
Record homa_sendmsg_args : Type :=
  { args_id : Z; args_completion_cookie : Z }.

(** [struct homa_abort_args], initialised as [{id, error}]. *)
Record homa_abort_args : Type := { abort_id : Z; abort_error : Z }.

(** [struct msghdr], with the fields the library assigns ([msg_flags] is
    never assigned, and [sendmsg] does not read it).  [msg_iov] and
    [msg_control] point to objects of the calling function; they are
    modelled by those objects.  [msg_controllen] is 0 in every call: Homa
    takes the control block from [msg_control] alone. *)
Record msghdr : Type :=
  { msg_name : option sockaddr;
    msg_namelen : Z;
    msg_iov : list iovec;
    msg_iovlen : Z;
    msg_control : homa_sendmsg_args;
    msg_controllen : Z }.

#[global] Instance sockaddr_eq_dec : EqDecision sockaddr.
Proof. solve_decision. Defined.
#[global] Instance iovec_eq_dec : EqDecision iovec.
Proof. solve_decision. Defined.
#[global] Instance homa_sendmsg_args_eq_dec : EqDecision homa_sendmsg_args.
Proof. solve_decision. Defined.
#[global] Instance homa_abort_args_eq_dec : EqDecision homa_abort_args.
Proof. solve_decision. Defined.
#[global] Instance msghdr_eq_dec : EqDecision msghdr.
Proof. solve_decision. Defined.

(** The system calls the library issues, with their arguments. *)
Inductive syscall : Type :=
  | Sendmsg (sockfd : Z) (hdr : msghdr) (flags : Z)
  | Ioctl (sockfd : Z) (request : Z) (arg : homa_abort_args)
  | Getsockopt (sockfd level optname : Z) (optval : option sockaddr)
               (optlen : Z).

Definition is_sendmsg (c : syscall) : bool :=
  match c with Sendmsg _ _ _ => true | _ => false end.
Definition is_ioctl (c : syscall) : bool :=
  match c with Ioctl _ _ _ => true | _ => false end.

(** ** The transport engine

    What a system call does is up to the engine: it may change its own state,
    [sendmsg] may rewrite the control block it was given (this is how the id
    of a new RPC comes back), and every call returns an integer. *)

Record sendmsg_out (K : Type) : Type :=
  { sm_kernel : K; sm_control : homa_sendmsg_args; sm_ret : Z }.
Arguments sm_kernel {K} _.
Arguments sm_control {K} _.
Arguments sm_ret {K} _.

Record engine (K : Type) : Type :=
  { k_sendmsg : K -> Z -> msghdr -> Z -> sendmsg_out K;
    k_ioctl : K -> Z -> Z -> homa_abort_args -> K * Z;
    k_getsockopt : K -> Z -> Z -> Z -> option sockaddr -> Z -> K * Z }.
Arguments k_sendmsg {K} _ _ _ _ _.
Arguments k_ioctl {K} _ _ _ _ _.
Arguments k_getsockopt {K} _ _ _ _ _ _ _.

(** ** The world a library call runs in *)

Record world (K : Type) : Type :=
  { kernel : K; memory : gmap Z Z; trace : list syscall }.
Arguments kernel {K} _.
Arguments memory {K} _.
Arguments trace {K} _.

(** A computation returns a value and a new world, or faults ([None]). *)
Definition M (K A : Type) : Type := world K -> option (A * world K).

Definition ret {K A : Type} (a : A) : M K A := fun w => Some (a, w).

Definition bind {K A B : Type} (m : M K A) (f : A -> M K B) : M K B :=
  fun w => match m w with
           | Some (a, w') => f a w'
           | None => None
           end.

Declare Scope homa_scope.
Delimit Scope homa_scope with homa.
Notation "x <- m ;; k" := (bind m (fun x => k))
  (at level 100, m at next level, right associativity) : homa_scope.
Notation "m ;;; k" := (bind m (fun _ => k))
  (at level 100, right associativity) : homa_scope.
Open Scope homa_scope.

(** The system calls that the log of a run [w'] added to the log of [w]. *)
Definition issued {K : Type} (w w' : world K) : list syscall :=
  drop (length (trace w)) (trace w').

Section API.

Context {K : Type}.
Variable E : engine K.

(** Constants of homa.h. *)
Variables HOMAIOCABORT IPPROTO_HOMA SO_HOMA_PEELOFF : Z.

(** *** System calls *)

Definition sendmsg (sockfd : Z) (hdr : msghdr) (flags : Z)
  : M K (Z * homa_sendmsg_args) :=
  fun w =>
    let out := k_sendmsg E (kernel w) sockfd hdr flags in
    Some ((sm_ret out, sm_control out),
          {| kernel := sm_kernel out;
             memory := memory w;
             trace := trace w ++ [Sendmsg sockfd hdr flags] |}).

Definition ioctl (sockfd request : Z) (arg : homa_abort_args) : M K Z :=
  fun w =>
    let out := k_ioctl E (kernel w) sockfd request arg in
    Some (snd out,
          {| kernel := fst out;
             memory := memory w;
             trace := trace w ++ [Ioctl sockfd request arg] |}).

Definition getsockopt (sockfd level optname : Z)
    (optval : option sockaddr) (optlen : Z) : M K Z :=
  fun w =>
    let out := k_getsockopt E (kernel w) sockfd level optname optval optlen in
    Some (snd out,
          {| kernel := fst out;
             memory := memory w;
             trace :=
               trace w ++ [Getsockopt sockfd level optname optval optlen] |}).

(** [*p = v] for a [uint64_t *p]; writing through [NULL] is a fault. *)
Definition store64 (p : ptr) (v : Z) : M K unit :=
  fun w =>
    if decide (p = NULL) then None
    else Some (tt, {| kernel := kernel w;
                      memory := <[p := v]> (memory w);
                      trace := trace w |}).

(** *** The API *)

Definition homa_reply (sockfd : Z) (message_buf : ptr) (length : Z)
    (dest_addr : option sockaddr) (addrlen : Z) (id : Z) : M K Z :=
  let args := {| args_id := id; args_completion_cookie := 0 |} in
  let vec := {| iov_base := message_buf; iov_len := length |} in
  let hdr := {| msg_name := dest_addr;
                msg_namelen := addrlen;
                msg_iov := [vec];
                msg_iovlen := 1;
                msg_control := args;
                msg_controllen := 0 |} in
  r <- sendmsg sockfd hdr 0 ;;
  let result := to_int (fst r) in
  ret (to_ssize_t result).

Definition homa_replyv (sockfd : Z) (iov : list iovec) (iovcnt : Z)
    (dest_addr : option sockaddr) (addrlen : Z) (id : Z) : M K Z :=
  let args := {| args_id := id; args_completion_cookie := 0 |} in
  let hdr := {| msg_name := dest_addr;
                msg_namelen := addrlen;
                msg_iov := iov;
                msg_iovlen := to_size_t iovcnt;
                msg_control := args;
                msg_controllen := 0 |} in
  r <- sendmsg sockfd hdr 0 ;;
  let result := to_int (fst r) in
  ret (to_ssize_t result).

Definition homa_send (sockfd : Z) (message_buf : ptr) (length : Z)
    (dest_addr : option sockaddr) (addrlen : Z) (id : ptr)
    (completion_cookie : Z) : M K Z :=
  let args := {| args_id := 0;
                 args_completion_cookie := completion_cookie |} in
  let vec := {| iov_base := message_buf; iov_len := length |} in
  let hdr := {| msg_name := dest_addr;
                msg_namelen := addrlen;
                msg_iov := [vec];
                msg_iovlen := 1;
                msg_control := args;
                msg_controllen := 0 |} in
  r <- sendmsg sockfd hdr 0 ;;
  let result := to_int (fst r) in
  let args := snd r in
  (if bool_decide (0 <= result) && bool_decide (id <> NULL)
   then store64 id (args_id args)
   else ret tt) ;;;
  ret result.

Definition homa_sendv (sockfd : Z) (iov : list iovec) (iovcnt : Z)
    (dest_addr : option sockaddr) (addrlen : Z) (id : ptr)
    (completion_cookie : Z) : M K Z :=
  let args := {| args_id := 0;
                 args_completion_cookie := completion_cookie |} in
  let hdr := {| msg_name := dest_addr;
                msg_namelen := addrlen;
                msg_iov := iov;
                msg_iovlen := to_size_t iovcnt;
                msg_control := args;
                msg_controllen := 0 |} in
  r <- sendmsg sockfd hdr 0 ;;
  let result := to_int (fst r) in
  let args := snd r in
  (if bool_decide (0 <= result) && bool_decide (id <> NULL)
   then store64 id (args_id args)
   else ret tt) ;;;
  ret result.

Definition homa_abort (sockfd : Z) (id : Z) (error : Z) : M K Z :=
  let args := {| abort_id := id; abort_error := error |} in
  ioctl sockfd HOMAIOCABORT args.

Definition homa_reply_connected (sockfd : Z) (message_buf : ptr)
    (length : Z) (id : Z) : M K Z :=
  let args := {| args_id := id; args_completion_cookie := 0 |} in
  let vec := {| iov_base := message_buf; iov_len := length |} in
  let hdr := {| msg_name := None;
                msg_namelen := 0;
                msg_iov := [vec];
                msg_iovlen := 1;
                msg_control := args;
                msg_controllen := 0 |} in
  r <- sendmsg sockfd hdr 0 ;;
  let result := to_int (fst r) in
  ret (to_ssize_t result).

Definition homa_send_connected (sockfd : Z) (message_buf : ptr)
    (length : Z) (flags : Z) : M K Z :=
  let args := {| args_id := 0; args_completion_cookie := 0 |} in
  let vec := {| iov_base := message_buf; iov_len := length |} in
  let hdr := {| msg_name := None;
                msg_namelen := 0;
                msg_iov := [vec];
                msg_iovlen := 1;
                msg_control := args;
                msg_controllen := 0 |} in
  r <- sendmsg sockfd hdr 0 ;;
  let result := to_int (fst r) in
  ret result.

Definition homa_peeloff (sockfd : Z) (client_addr : option sockaddr)
    (addrlen : Z) : M K Z :=
  getsockopt sockfd IPPROTO_HOMA SO_HOMA_PEELOFF client_addr addrlen.

End API.

(** ** The API as one dispatcher

    The eight entry points of the library, with their arguments. *)

Inductive api_call : Type :=
  | Reply (sockfd : Z) (message_buf : ptr) (length : Z)
          (dest_addr : option sockaddr) (addrlen : Z) (id : Z)
  | Replyv (sockfd : Z) (iov : list iovec) (iovcnt : Z)
           (dest_addr : option sockaddr) (addrlen : Z) (id : Z)
  | Send (sockfd : Z) (message_buf : ptr) (length : Z)
         (dest_addr : option sockaddr) (addrlen : Z) (id : ptr)
         (completion_cookie : Z)
  | Sendv (sockfd : Z) (iov : list iovec) (iovcnt : Z)
          (dest_addr : option sockaddr) (addrlen : Z) (id : ptr)
          (completion_cookie : Z)
  | Abort (sockfd : Z) (id : Z) (error : Z)
  | ReplyConnected (sockfd : Z) (message_buf : ptr) (length : Z) (id : Z)
  | SendConnected (sockfd : Z) (message_buf : ptr) (length : Z) (flags : Z)
  | Peeloff (sockfd : Z) (client_addr : option sockaddr) (addrlen : Z).

Definition is_abort (c : api_call) : bool :=
  match c with Abort _ _ _ => true | _ => false end.

Definition is_peeloff (c : api_call) : bool :=
  match c with Peeloff _ _ _ => true | _ => false end.

Section Dispatch.

Context {K : Type}.
Variable E : engine K.
Variables HOMAIOCABORT IPPROTO_HOMA SO_HOMA_PEELOFF : Z.

Definition call (c : api_call) : M K Z :=
  match c with
  | Reply s b l d a i => homa_reply E s b l d a i
  | Replyv s v n d a i => homa_replyv E s v n d a i
  | Send s b l d a i c => homa_send E s b l d a i c
  | Sendv s v n d a i c => homa_sendv E s v n d a i c
  | Abort s i e => homa_abort E HOMAIOCABORT s i e
  | ReplyConnected s b l i => homa_reply_connected E s b l i
  | SendConnected s b l f => homa_send_connected E s b l f
  | Peeloff s c a => homa_peeloff E IPPROTO_HOMA SO_HOMA_PEELOFF s c a
  end.

(** The system calls one API call issues in world [w]. *)
Definition syscalls_of (c : api_call) (w : world K) : list syscall :=
  match call c w with
  | Some (_, w') => issued w w'
  | None => []
  end.

End Dispatch.

(** What a logged system call carried: the control block of a [sendmsg],
    and its flags. *)
Definition control_of (c : syscall) : option homa_sendmsg_args :=
  match c with
  | Sendmsg _ hdr _ => Some (msg_control hdr)
  | _ => None
  end.

Definition flags_of (c : syscall) : option Z :=
  match c with
  | Sendmsg _ _ flags => Some flags
  | _ => None
  end.

(** The cookies, ids and flags of the [sendmsg] calls of a log. *)
Definition sent_cookies (cs : list syscall) : list (option Z) :=
  map (fun c => option_map args_completion_cookie (control_of c)) cs.

Definition sent_ids (cs : list syscall) : list (option Z) :=
  map (fun c => option_map args_id (control_of c)) cs.

Definition sent_flags (cs : list syscall) : list (option Z) :=
  map flags_of cs.

(** ** Message headers and outcomes, for the statements below *)

(** The header of a send with one buffer, and with an [iovec] array. *)
Definition hdr1 (message_buf : ptr) (length : Z)
    (dest_addr : option sockaddr) (addrlen : Z) (id cookie : Z) : msghdr :=
  {| msg_name := dest_addr;
     msg_namelen := addrlen;
     msg_iov := [{| iov_base := message_buf; iov_len := length |}];
     msg_iovlen := 1;
     msg_control := {| args_id := id; args_completion_cookie := cookie |};
     msg_controllen := 0 |}.

Definition hdrv (iov : list iovec) (iovcnt : Z)
    (dest_addr : option sockaddr) (addrlen : Z) (id cookie : Z) : msghdr :=
  {| msg_name := dest_addr;
     msg_namelen := addrlen;
     msg_iov := iov;
     msg_iovlen := to_size_t iovcnt;
     msg_control := {| args_id := id; args_completion_cookie := cookie |};
     msg_controllen := 0 |}.

(** The world after [sendmsg sockfd hdr 0], with the id that came back stored
    at [idp] when [store] holds. *)
Definition after_sendmsg {K : Type} (E : engine K) (w : world K) (sockfd : Z)
    (hdr : msghdr) (store : bool) (idp : ptr) : world K :=
  let out := k_sendmsg E (kernel w) sockfd hdr 0 in
  {| kernel := sm_kernel out;
     memory := if store then <[idp := args_id (sm_control out)]> (memory w)
               else memory w;
     trace := trace w ++ [Sendmsg sockfd hdr 0] |}.

(** An engine whose [sendmsg] returns values of C type [int]: -1 on error
    and otherwise a count that Linux keeps below [INT_MAX]. *)
Definition sendmsg_in_int {K : Type} (E : engine K) : Prop :=
  forall k sockfd hdr flags, fits_int (sm_ret (k_sendmsg E k sockfd hdr flags)).

(** What a request send must do in world [w], given the header [hdr] it hands
    to [sendmsg] and the caller's id pointer [idp]: one [sendmsg] with id 0 in
    the control block, the result passed on, and the caller's id cell written
    exactly when the result is not negative. *)
Definition request_outcome {K : Type} (E : engine K) (w : world K)
    (sockfd : Z) (hdr : msghdr) (idp : ptr)
    (res : option (Z * world K)) : Prop :=
  let out := k_sendmsg E (kernel w) sockfd hdr 0 in
  args_id (msg_control hdr) = 0 /\
  exists w', res = Some (sm_ret out, w') /\
    kernel w' = sm_kernel out /\
    trace w' = trace w ++ [Sendmsg sockfd hdr 0] /\
    (0 <= sm_ret out ->
       memory w' = <[idp := args_id (sm_control out)]> (memory w)) /\
    (sm_ret out < 0 -> memory w' = memory w).

(** ** A model of the transport engine

    The engine behind the system calls (the Homa kernel module) is not part
    of homa_api.c.  This model follows the boundary contract of the
    specification; it instantiates [engine], and it is the engine that
    decides what peeling off a socket does. *)

Module Engine.

(** Modelled from the spec: the error kinds of the error taxonomy that an
    engine call can report through its side channel (errno). *)
Inductive error : Type :=
  | TransportRejected
  | AddressingError.

(** Modelled from the spec: a socket is a listening socket (the default) or a
    peeled-off socket bound to exactly one peer. *)
Inductive socket : Type :=
  | Listening
  | PeeledOff (peer : sockaddr).

(** Modelled from the spec: an active client RPC, with the socket it was sent
    on, its id and its completion cookie. *)
Record rpc : Type := { rpc_socket : Z; rpc_id : Z; rpc_cookie : Z }.

(** Modelled from the spec: the state of the engine.  [sockets] is the table
    of open sockets; [associations] lists the live associations, that is the
    peers (address and address length) observed by a receive on a socket;
    [next_id] is the identity allocator; [active] are the client RPCs in
    flight and [completed] the ones a receive will surface with an error. *)
Record state : Type :=
  { sockets : gmap Z socket;
    associations : list (Z * sockaddr * Z);
    next_id : Z;
    active : list rpc;
    completed : list (Z * Z * Z);
    errno : option error }.

#[global] Instance socket_eq_dec : EqDecision socket.
Proof. solve_decision. Defined.

Definition fail (e : error) (st : state) : state :=
  {| sockets := sockets st;
     associations := associations st;
     next_id := next_id st;
     active := active st;
     completed := completed st;
     errno := Some e |}.

(** Modelled from the spec: a message can be sent to an explicit address on
    any open socket, and without one only on a peeled-off socket. *)
Definition can_send (st : state) (sockfd : Z) (dest : option sockaddr)
  : bool :=
  match sockets st !! sockfd, dest with
  | Some (PeeledOff _), _ => true
  | Some Listening, Some _ => true
  | _, _ => false
  end.

(** Modelled from the spec: the message-send primitive.  A control block
    with id 0 is a fresh request: the allocator assigns the next id, which
    comes back in the control block.  A non-zero id is a reply; a reply to
    a request that is not active is a silent no-op.  The result is 0 when the
    message is accepted (the return value that homa_api.c documents) and -1,
    with the error in the side channel, when it is rejected. *)
Definition send (st : state) (sockfd : Z) (hdr : msghdr) (flags : Z)
  : sendmsg_out state :=
  if can_send st sockfd (msg_name hdr) then
    if decide (args_id (msg_control hdr) = 0) then
      {| sm_kernel :=
           {| sockets := sockets st;
              associations := associations st;
              next_id := next_id st + 1;
              active :=
                {| rpc_socket := sockfd;
                   rpc_id := next_id st;
                   rpc_cookie := args_completion_cookie (msg_control hdr) |}
                :: active st;
              completed := completed st;
              errno := errno st |};
         sm_control :=
           {| args_id := next_id st;
              args_completion_cookie :=
                args_completion_cookie (msg_control hdr) |};
         sm_ret := 0 |}
    else {| sm_kernel := st; sm_control := msg_control hdr; sm_ret := 0 |}
  else {| sm_kernel := fail TransportRejected st;
          sm_control := msg_control hdr;
          sm_ret := -1 |}.

Section Requests.

Variables HOMAIOCABORT IPPROTO_HOMA SO_HOMA_PEELOFF : Z.

(** Modelled from the spec: the RPCs an abort of [id] on [sockfd] applies
    to: every active client RPC of the socket when [id] is 0, and the one
    RPC with that id otherwise. *)
Definition aborted (sockfd id : Z) (r : rpc) : bool :=
  bool_decide (rpc_socket r = sockfd) &&
  (bool_decide (id = 0) || bool_decide (rpc_id r = id)).

(** Modelled from the spec: the control-transfer primitive.  With error 0
    the matching RPCs are destroyed; with another error they become
    completed with that error.  An id that matches no active RPC is a no-op
    and not an error. *)
Definition control (st : state) (sockfd request : Z) (arg : homa_abort_args)
  : state * Z :=
  if bool_decide (request = HOMAIOCABORT) &&
     bool_decide (is_Some (sockets st !! sockfd)) then
    let hit := filter (fun r => aborted sockfd (abort_id arg) r = true)
                      (active st) in
    ({| sockets := sockets st;
        associations := associations st;
        next_id := next_id st;
        active := filter (fun r => aborted sockfd (abort_id arg) r = false)
                         (active st);
        completed :=
          if decide (abort_error arg = 0) then completed st
          else completed st ++
               map (fun r => (sockfd, rpc_id r, abort_error arg)) hit;
        errno := errno st |}, 0)
  else (fail TransportRejected st, -1).

(** Modelled from the spec: a descriptor that names no open socket. *)
Definition fresh_fd (socks : gmap Z socket) : Z :=
  1 + foldr Z.max (-1) (elements (dom socks)).

(** Modelled from the spec: [peer] with [addrlen] is a live association of
    the listening socket [sockfd]. *)
Definition live (st : state) (sockfd : Z) (peer : option sockaddr)
    (addrlen : Z) : Prop :=
  exists a, peer = Some a /\
    sockets st !! sockfd = Some Listening /\
    (sockfd, a, addrlen) ∈ associations st.

#[global] Instance live_dec st sockfd peer addrlen :
  Decision (live st sockfd peer addrlen).
Proof.
  unfold live. destruct peer as [a|].
  - destruct (decide (sockets st !! sockfd = Some Listening /\
                      (sockfd, a, addrlen) ∈ associations st)) as [H|H].
    + left. exists a. tauto.
    + right. intros (a' & Ha & H'). inversion Ha; subst. tauto.
  - right. intros (a' & Ha & _). discriminate.
Defined.

(** Modelled from the spec: peel-off.  For a live association a new socket
    is created, bound to that peer only, and the listening socket stays as it
    is; otherwise the operation fails with an addressing error and the
    socket table is left alone. *)
Definition peel_off (st : state) (sockfd : Z) (peer : option sockaddr)
    (addrlen : Z) : state * Z :=
  match peer with
  | Some a =>
      if decide (live st sockfd peer addrlen) then
        let fd := fresh_fd (sockets st) in
        ({| sockets := <[fd := PeeledOff a]> (sockets st);
            associations := associations st;
            next_id := next_id st;
            active := active st;
            completed := completed st;
            errno := errno st |}, fd)
      else (fail AddressingError st, -1)
  | None => (fail AddressingError st, -1)
  end.

(** Modelled from the spec: the socket-option primitive, used only by
    peel-off. *)
Definition sockopt (st : state) (sockfd level optname : Z)
    (optval : option sockaddr) (optlen : Z) : state * Z :=
  if bool_decide (level = IPPROTO_HOMA) &&
     bool_decide (optname = SO_HOMA_PEELOFF) then
    peel_off st sockfd optval optlen
  else (fail TransportRejected st, -1).

Definition homa : engine state :=
  {| k_sendmsg := send; k_ioctl := control; k_getsockopt := sockopt |}.

End Requests.

(** A small engine state for the examples: socket 3 listens and has met one
    peer, socket 4 was peeled off for that peer. *)
Definition peer1 : sockaddr := {| sa_family := 10; sa_data := [10; 0; 0; 1] |}.
Definition peer2 : sockaddr := {| sa_family := 10; sa_data := [10; 0; 0; 2] |}.

Definition st0 : state :=
  {| sockets := <[3 := Listening]> (<[4 := PeeledOff peer1]> ∅);
     associations := [(3, peer1, 28)];
     next_id := 1001;
     active := [];
     completed := [];
     errno := None |}.

Definition w0 : world state := {| kernel := st0; memory := ∅; trace := [] |}.

(** Stand-ins for the constants of homa.h in the examples. *)
Definition abort_request : Z := 3223357923.
Definition homa_level : Z := 253.
Definition peeloff_option : Z := 11.

Definition homa0 : engine state :=
  homa abort_request homa_level peeloff_option.

End Engine.

(** What a send that leaves the caller's memory alone comes to in world
    [w]: the result of the one [sendmsg] it issued, in a world where only the
    engine state and the log have changed. *)
Definition untouched_outcome {K : Type} (E : engine K) (w : world K)
    (sockfd : Z) (hdr : msghdr) (res : option (Z * world K)) : Prop :=
  let out := k_sendmsg E (kernel w) sockfd hdr 0 in
  res = Some (sm_ret out,
              {| kernel := sm_kernel out;
                 memory := memory w;
                 trace := trace w ++ [Sendmsg sockfd hdr 0] |}).

(** What peeling [peer] off the listening socket [sockfd] must do in engine
    state [st]: for a live association a new socket comes back, a descriptor
    that is not negative, differs from [sockfd] and was not open, bound to
    the peer while the rest of the table stays; otherwise the call fails
    with an addressing error and the socket table is as before. *)
Definition peeloff_outcome (st : Engine.state) (sockfd : Z)
    (peer : option sockaddr) (addrlen : Z)
    (res : option (Z * world Engine.state)) : Prop :=
  exists r w', res = Some (r, w') /\
    (Engine.live st sockfd peer addrlen ->
       0 <= r /\ r <> sockfd /\ Engine.sockets st !! r = None /\
       Engine.sockets (kernel w') !! sockfd = Some Engine.Listening /\
       exists a, peer = Some a /\
         Engine.sockets (kernel w')
           = <[r := Engine.PeeledOff a]> (Engine.sockets st)) /\
    (~ Engine.live st sockfd peer addrlen ->
       r < 0 /\
       Engine.errno (kernel w') = Some Engine.AddressingError /\
       Engine.sockets (kernel w') = Engine.sockets st).

(** ** Programs of API calls, and what to observe of them *)

(** The socket an API call is made on, and the socket of a system call. *)
Definition call_sockfd (c : api_call) : Z :=
  match c with
  | Reply s _ _ _ _ _ | Replyv s _ _ _ _ _ | Send s _ _ _ _ _ _
  | Sendv s _ _ _ _ _ _ | Abort s _ _ | ReplyConnected s _ _ _
  | SendConnected s _ _ _ | Peeloff s _ _ => s
  end.

Definition syscall_sockfd (e : syscall) : Z :=
  match e with
  | Sendmsg s _ _ | Ioctl s _ _ | Getsockopt s _ _ _ _ => s
  end.

(** The system call that serves an API call: [ioctl] for an abort,
    [getsockopt] for a peel-off, [sendmsg] with flags 0 for the others, on
    the socket of the call. *)
Definition serves (c : api_call) (e : syscall) : bool :=
  bool_decide (syscall_sockfd e = call_sockfd c) &&
  match c, e with
  | Abort _ _ _, Ioctl _ _ _ => true
  | Peeloff _ _ _, Getsockopt _ _ _ _ _ => true
  | (Reply _ _ _ _ _ _ | Replyv _ _ _ _ _ _ | Send _ _ _ _ _ _ _
     | Sendv _ _ _ _ _ _ _ | ReplyConnected _ _ _ _ | SendConnected _ _ _ _),
    Sendmsg _ _ flags => bool_decide (flags = 0)
  | _, _ => false
  end.

(** The one cell of the caller's memory an API call may write: the target of
    a request's id pointer, when it is not [NULL]. *)
Definition written_cell (c : api_call) : option ptr :=
  match c with
  | Send _ _ _ _ _ id _ | Sendv _ _ _ _ _ id _ =>
      if decide (id = NULL) then None else Some id
  | _ => None
  end.

(** The [iovec] array and the count that a [sendmsg] call carried. *)
Definition iov_of (e : syscall) : option (list iovec * Z) :=
  match e with
  | Sendmsg _ hdr _ => Some (msg_iov hdr, msg_iovlen hdr)
  | _ => None
  end.

Section Programs.

Context {K : Type}.
Variable E : engine K.
Variables HOMAIOCABORT IPPROTO_HOMA SO_HOMA_PEELOFF : Z.

(** A caller that makes the API calls [cs] one after the other and collects
    their results. *)
Fixpoint run_all (cs : list api_call) : M K (list Z) :=
  match cs with
  | [] => ret []
  | c :: cs' =>
      r <- call E HOMAIOCABORT IPPROTO_HOMA SO_HOMA_PEELOFF c ;;
      rs <- run_all cs' ;;
      ret (r :: rs)
  end.

End Programs.

(** An engine for examples whose [sendmsg] always returns [r] and leaves
    [id] in the control block; its other calls return 0. *)
Definition const_engine (r id : Z) : engine unit :=
  {| k_sendmsg := fun _ _ hdr _ =>
       {| sm_kernel := tt;
          sm_control :=
            {| args_id := id;
               args_completion_cookie :=
                 args_completion_cookie (msg_control hdr) |};
          sm_ret := r |};
     k_ioctl := fun _ _ _ _ => (tt, 0);
     k_getsockopt := fun _ _ _ _ _ _ => (tt, 0) |}.

Definition unit_world : world unit :=
  {| kernel := tt; memory := ∅; trace := [] |}.

(** * Properties *)

(** ** Integer conversions *)

Lemma to_int_fits (x : Z) : fits_int x -> to_int x = x.
Proof.
  unfold fits_int, INT_MIN, INT_MAX, to_int, wrap_signed. intros H.
  rewrite Z.mod_small; lia.
Qed.

Lemma to_int_range (x : Z) : fits_int (to_int x).
Proof.
  unfold fits_int, INT_MIN, INT_MAX, to_int, wrap_signed.
  pose proof (Z.mod_pos_bound (x + 2 ^ (32 - 1)) (2 ^ 32)). lia.
Qed.

Lemma to_ssize_t_int (x : Z) : fits_int x -> to_ssize_t x = x.
Proof.
  unfold fits_int, INT_MIN, INT_MAX, to_ssize_t, wrap_signed. intros H.
  rewrite Z.mod_small; lia.
Qed.

Lemma to_ssize_t_to_int (x : Z) : to_ssize_t (to_int x) = to_int x.
Proof. apply to_ssize_t_int, to_int_range. Qed.

(** The guard [result >= 0 && id] fails for a [NULL] id pointer. *)
Lemma null_guard (result : Z) :
  bool_decide (0 <= result) && bool_decide (NULL <> NULL) = false.
Proof. rewrite (bool_decide_eq_false_2 (NULL <> NULL)); auto using andb_false_r. Qed.

(** ** The log *)

Lemma issued_app {K : Type} (w : world K) (k : K) (m : gmap Z Z)
    (cs : list syscall) :
  issued w {| kernel := k; memory := m; trace := trace w ++ cs |} = cs.
Proof. unfold issued. simpl. apply drop_app_length. Qed.

Lemma after_sendmsg_issued {K : Type} (E : engine K) w sockfd hdr store idp :
  issued w (after_sendmsg E w sockfd hdr store idp) = [Sendmsg sockfd hdr 0].
Proof. apply issued_app. Qed.

(** ** What each function does, in one equation *)

Section Runs.

Context {K : Type}.
Variable E : engine K.
Variables HOMAIOCABORT IPPROTO_HOMA SO_HOMA_PEELOFF : Z.

Lemma homa_replyv_run sockfd iov iovcnt dest_addr addrlen id w :
  homa_replyv E sockfd iov iovcnt dest_addr addrlen id w =
  let hdr := hdrv iov iovcnt dest_addr addrlen id 0 in
  Some (to_int (sm_ret (k_sendmsg E (kernel w) sockfd hdr 0)),
        after_sendmsg E w sockfd hdr false NULL).
Proof.
  unfold homa_replyv, bind, sendmsg, ret, after_sendmsg, hdrv. simpl.
  by rewrite to_ssize_t_to_int.
Qed.

Lemma homa_reply_run sockfd message_buf length dest_addr addrlen id w :
  homa_reply E sockfd message_buf length dest_addr addrlen id w =
  let hdr := hdr1 message_buf length dest_addr addrlen id 0 in
  Some (to_int (sm_ret (k_sendmsg E (kernel w) sockfd hdr 0)),
        after_sendmsg E w sockfd hdr false NULL).
Proof.
  unfold homa_reply, bind, sendmsg, ret, after_sendmsg, hdr1. simpl.
  by rewrite to_ssize_t_to_int.
Qed.

Lemma homa_sendv_run sockfd iov iovcnt dest_addr addrlen id cookie w :
  homa_sendv E sockfd iov iovcnt dest_addr addrlen id cookie w =
  let hdr := hdrv iov iovcnt dest_addr addrlen 0 cookie in
  let result := to_int (sm_ret (k_sendmsg E (kernel w) sockfd hdr 0)) in
  Some (result,
        after_sendmsg E w sockfd hdr
          (bool_decide (0 <= result) && bool_decide (id <> NULL)) id).
Proof.
  unfold homa_sendv, bind, sendmsg, ret, after_sendmsg, hdrv. simpl.
  destruct (bool_decide (0 <= _)); simpl; [|done].
  case_bool_decide as Hid; simpl; [|done].
  unfold store64. simpl. by rewrite decide_False.
Qed.

Lemma homa_send_run sockfd message_buf length dest_addr addrlen id cookie w :
  homa_send E sockfd message_buf length dest_addr addrlen id cookie w =
  let hdr := hdr1 message_buf length dest_addr addrlen 0 cookie in
  let result := to_int (sm_ret (k_sendmsg E (kernel w) sockfd hdr 0)) in
  Some (result,
        after_sendmsg E w sockfd hdr
          (bool_decide (0 <= result) && bool_decide (id <> NULL)) id).
Proof.
  unfold homa_send, bind, sendmsg, ret, after_sendmsg, hdr1. simpl.
  destruct (bool_decide (0 <= _)); simpl; [|done].
  case_bool_decide as Hid; simpl; [|done].
  unfold store64. simpl. by rewrite decide_False.
Qed.

Lemma homa_reply_connected_run sockfd message_buf length id w :
  homa_reply_connected E sockfd message_buf length id w =
  let hdr := hdr1 message_buf length None 0 id 0 in
  Some (to_int (sm_ret (k_sendmsg E (kernel w) sockfd hdr 0)),
        after_sendmsg E w sockfd hdr false NULL).
Proof.
  unfold homa_reply_connected, bind, sendmsg, ret, after_sendmsg, hdr1.
  simpl. by rewrite to_ssize_t_to_int.
Qed.

Lemma homa_send_connected_run sockfd message_buf length flags w :
  homa_send_connected E sockfd message_buf length flags w =
  let hdr := hdr1 message_buf length None 0 0 0 in
  Some (to_int (sm_ret (k_sendmsg E (kernel w) sockfd hdr 0)),
        after_sendmsg E w sockfd hdr false NULL).
Proof. reflexivity. Qed.

Lemma homa_abort_run sockfd id error w :
  homa_abort E HOMAIOCABORT sockfd id error w =
  let arg := {| abort_id := id; abort_error := error |} in
  let out := k_ioctl E (kernel w) sockfd HOMAIOCABORT arg in
  Some (snd out,
        {| kernel := fst out;
           memory := memory w;
           trace := trace w ++ [Ioctl sockfd HOMAIOCABORT arg] |}).
Proof. reflexivity. Qed.

Lemma homa_peeloff_run sockfd client_addr addrlen w :
  homa_peeloff E IPPROTO_HOMA SO_HOMA_PEELOFF sockfd client_addr addrlen w =
  let out := k_getsockopt E (kernel w) sockfd IPPROTO_HOMA SO_HOMA_PEELOFF
               client_addr addrlen in
  Some (snd out,
        {| kernel := fst out;
           memory := memory w;
           trace := trace w ++ [Getsockopt sockfd IPPROTO_HOMA SO_HOMA_PEELOFF
                                  client_addr addrlen] |}).
Proof. reflexivity. Qed.

Create Rewrite HintDb homa_run.
#[local] Hint Rewrite homa_reply_run homa_replyv_run homa_send_run
  homa_sendv_run homa_abort_run homa_reply_connected_run
  homa_send_connected_run homa_peeloff_run : homa_run.

(** Replace the API call of the goal by its outcome. *)
Ltac run_call c := destruct c; cbn [call]; autorewrite with homa_run; cbv zeta.

(** Every API call issues exactly one system call: [ioctl] for an abort,
    [getsockopt] for a peel-off and [sendmsg], with flags 0, for the rest. *)
Lemma syscalls_of_call (c : api_call) (w : world K) :
  syscalls_of E HOMAIOCABORT IPPROTO_HOMA SO_HOMA_PEELOFF c w =
  match c with
  | Reply s b l d a i => [Sendmsg s (hdr1 b l d a i 0) 0]
  | Replyv s v n d a i => [Sendmsg s (hdrv v n d a i 0) 0]
  | Send s b l d a _ c => [Sendmsg s (hdr1 b l d a 0 c) 0]
  | Sendv s v n d a _ c => [Sendmsg s (hdrv v n d a 0 c) 0]
  | Abort s i e =>
      [Ioctl s HOMAIOCABORT {| abort_id := i; abort_error := e |}]
  | ReplyConnected s b l i => [Sendmsg s (hdr1 b l None 0 i 0) 0]
  | SendConnected s b l _ => [Sendmsg s (hdr1 b l None 0 0 0) 0]
  | Peeloff s c a => [Getsockopt s IPPROTO_HOMA SO_HOMA_PEELOFF c a]
  end.
Proof.
  unfold syscalls_of.
  run_call c; first [apply after_sendmsg_issued | apply issued_app].
Qed.

(** No API call faults. *)
Lemma call_total (c : api_call) (w : world K) :
  is_Some (call E HOMAIOCABORT IPPROTO_HOMA SO_HOMA_PEELOFF c w).
Proof. run_call c; eauto. Qed.

End Runs.

(** ** The library against any engine *)

Section Claims.

Context {K : Type}.
Variable E : engine K.
Variables HOMAIOCABORT IPPROTO_HOMA SO_HOMA_PEELOFF : Z.

Local Abbreviation syscalls :=
  (syscalls_of E HOMAIOCABORT IPPROTO_HOMA SO_HOMA_PEELOFF).

(** C4: every reply-side send ([homa_reply], [homa_replyv] and
    [homa_reply_connected]) issues one [sendmsg] whose control block has
    completion cookie 0, whatever the caller's arguments are. *)
Theorem reply_cookie_is_zero sockfd message_buf length iov iovcnt dest_addr
    addrlen id (w : world K) :
  sent_cookies (syscalls (Reply sockfd message_buf length dest_addr addrlen id) w)
    = [Some 0] /\
  sent_cookies (syscalls (Replyv sockfd iov iovcnt dest_addr addrlen id) w)
    = [Some 0] /\
  sent_cookies (syscalls (ReplyConnected sockfd message_buf length id) w)
    = [Some 0].
Proof. by rewrite !syscalls_of_call. Qed.

(** C5: [homa_send] on a buffer is [homa_sendv] on the one-element array
    [{buf, len}], and [homa_reply] is [homa_replyv] on that array: the same
    [sendmsg] call (control block, destination, flags), the same result and
    the same effect on the caller's id. *)
Theorem single_buffer_is_one_element_iovec sockfd message_buf length
    dest_addr addrlen id idp cookie (w : world K) :
  let iov := [{| iov_base := message_buf; iov_len := length |}] in
  homa_send E sockfd message_buf length dest_addr addrlen idp cookie w =
    homa_sendv E sockfd iov 1 dest_addr addrlen idp cookie w /\
  homa_reply E sockfd message_buf length dest_addr addrlen id w =
    homa_replyv E sockfd iov 1 dest_addr addrlen id w.
Proof.
  intros iov. split.
  - rewrite homa_send_run, homa_sendv_run. reflexivity.
  - rewrite homa_reply_run, homa_replyv_run. reflexivity.
Qed.

(** C6: [homa_abort] issues one [ioctl] and no [sendmsg]; the [ioctl] gets
    the request code [HOMAIOCABORT] and the record [{id, error}] as given,
    and its result is what [homa_abort] returns.  No other function of the
    API issues an [ioctl], and no API call faults. *)
Theorem abort_is_the_only_ioctl :
  (forall sockfd id error (w : world K),
     let arg := {| abort_id := id; abort_error := error |} in
     let out := k_ioctl E (kernel w) sockfd HOMAIOCABORT arg in
     homa_abort E HOMAIOCABORT sockfd id error w =
       Some (snd out,
             {| kernel := fst out;
                memory := memory w;
                trace := trace w ++ [Ioctl sockfd HOMAIOCABORT arg] |}) /\
     syscalls (Abort sockfd id error) w = [Ioctl sockfd HOMAIOCABORT arg]) /\
  (forall c (w : world K),
     existsb is_ioctl (syscalls c w) = is_abort c /\
     existsb is_sendmsg (syscalls c w) = negb (is_abort c || is_peeloff c) /\
     is_Some (call E HOMAIOCABORT IPPROTO_HOMA SO_HOMA_PEELOFF c w)).
Proof.
  split.
  - intros sockfd id error w arg out. split.
    + apply homa_abort_run.
    + apply syscalls_of_call.
  - intros c w. rewrite syscalls_of_call.
    split; [|split]; [by destruct c..|apply call_total].
Qed.

(** C8: [homa_reply] does not look at its id: for every id it issues one
    [sendmsg] with control block [{id, 0}].  With id 0 this is the very
    [sendmsg] call of [homa_send] with cookie 0 (same control block,
    destination and payload), with the same result and the same engine state
    afterwards. *)
Theorem reply_with_id_zero_is_a_request sockfd message_buf length dest_addr
    addrlen id idp (w : world K) :
  syscalls (Reply sockfd message_buf length dest_addr addrlen id) w
    = [Sendmsg sockfd (hdr1 message_buf length dest_addr addrlen id 0) 0] /\
  syscalls (Reply sockfd message_buf length dest_addr addrlen 0) w
    = syscalls (Send sockfd message_buf length dest_addr addrlen idp 0) w /\
  exists r w1 w2,
    homa_reply E sockfd message_buf length dest_addr addrlen 0 w
      = Some (r, w1) /\
    homa_send E sockfd message_buf length dest_addr addrlen idp 0 w
      = Some (r, w2) /\
    kernel w1 = kernel w2 /\
    trace w1 = trace w2.
Proof.
  rewrite !syscalls_of_call. do 2 (split; [done|]).
  rewrite homa_reply_run, homa_send_run. by eexists _, _, _.
Qed.

(** C9: the [flags] argument of [homa_send_connected] changes nothing: two
    calls that differ only in [flags] give the same result and the same
    world, and the flags of the [sendmsg] call are 0. *)
Theorem send_connected_ignores_flags sockfd message_buf length f1 f2
    (w : world K) :
  homa_send_connected E sockfd message_buf length f1 w =
    homa_send_connected E sockfd message_buf length f2 w /\
  syscalls (SendConnected sockfd message_buf length f1) w =
    syscalls (SendConnected sockfd message_buf length f2) w /\
  sent_flags (syscalls (SendConnected sockfd message_buf length f1) w)
    = [Some 0].
Proof.
  rewrite !syscalls_of_call, !homa_send_connected_run. by repeat split.
Qed.

(** A request send does what [request_outcome] asks, for any header with
    id 0 in its control block. *)
Lemma request_outcome_intro (w : world K) sockfd hdr idp :
  sendmsg_in_int E -> idp <> NULL -> args_id (msg_control hdr) = 0 ->
  let result := to_int (sm_ret (k_sendmsg E (kernel w) sockfd hdr 0)) in
  request_outcome E w sockfd hdr idp
    (Some (result,
           after_sendmsg E w sockfd hdr
             (bool_decide (0 <= result) && bool_decide (idp <> NULL)) idp)).
Proof.
  intros Hint Hidp Hid result. unfold request_outcome.
  split; [done|]. eexists. subst result.
  rewrite to_int_fits by apply Hint.
  split; [done|]. unfold after_sendmsg. simpl.
  rewrite (bool_decide_eq_true_2 _ Hidp), andb_true_r.
  repeat split.
  - intros Hok. by rewrite bool_decide_eq_true_2.
  - intros Herr. rewrite bool_decide_eq_false_2; [done|lia].
Qed.

(** C1: [homa_send] and [homa_sendv] issue one [sendmsg] whose control block
    has id 0, whatever the caller's id cell holds, and do not retry.  When
    [sendmsg] returns a result that is not negative, the id the engine left
    in the control block is stored through the caller's id pointer; when the
    result is negative, the caller's memory is unchanged.  Either way the
    result of [sendmsg] is returned as it is. *)
Theorem request_id_is_assigned_by_engine sockfd message_buf length iov
    iovcnt dest_addr addrlen idp cookie (w : world K) :
  sendmsg_in_int E -> idp <> NULL ->
  request_outcome E w sockfd
    (hdr1 message_buf length dest_addr addrlen 0 cookie) idp
    (homa_send E sockfd message_buf length dest_addr addrlen idp cookie w) /\
  request_outcome E w sockfd
    (hdrv iov iovcnt dest_addr addrlen 0 cookie) idp
    (homa_sendv E sockfd iov iovcnt dest_addr addrlen idp cookie w).
Proof.
  intros Hint Hidp. split.
  - rewrite homa_send_run. by apply request_outcome_intro.
  - rewrite homa_sendv_run. by apply request_outcome_intro.
Qed.

(** C10: with a [NULL] id pointer [homa_send] and [homa_sendv] do not fault:
    the store of the id is skipped, the caller's memory is unchanged, and the
    result of [sendmsg] is returned, whether it reports success or failure. *)
Theorem null_id_pointer_is_never_written sockfd message_buf length iov iovcnt
    dest_addr addrlen cookie (w : world K) :
  sendmsg_in_int E ->
  untouched_outcome E w sockfd
    (hdr1 message_buf length dest_addr addrlen 0 cookie)
    (homa_send E sockfd message_buf length dest_addr addrlen NULL cookie w) /\
  untouched_outcome E w sockfd
    (hdrv iov iovcnt dest_addr addrlen 0 cookie)
    (homa_sendv E sockfd iov iovcnt dest_addr addrlen NULL cookie w).
Proof.
  intros Hint. unfold untouched_outcome.
  rewrite homa_send_run, homa_sendv_run. cbv zeta.
  rewrite !null_guard. unfold after_sendmsg.
  by rewrite !to_int_fits by apply Hint.
Qed.

(** C2 (amended): [homa_reply_connected] is [homa_reply] with no
    destination ([msg_name = NULL], [msg_namelen = 0]).
    [homa_send_connected] is [homa_send] with no destination, completion
    cookie 0 and a [NULL] id pointer: it takes no cookie and hands no id
    back. *)
Theorem connected_variants_drop_the_address sockfd message_buf length id
    flags (w : world K) :
  homa_reply_connected E sockfd message_buf length id w =
    homa_reply E sockfd message_buf length None 0 id w /\
  homa_send_connected E sockfd message_buf length flags w =
    homa_send E sockfd message_buf length None 0 NULL 0 w /\
  syscalls (ReplyConnected sockfd message_buf length id) w =
    [Sendmsg sockfd (hdr1 message_buf length None 0 id 0) 0] /\
  syscalls (SendConnected sockfd message_buf length flags) w =
    [Sendmsg sockfd (hdr1 message_buf length None 0 0 0) 0].
Proof.
  rewrite !syscalls_of_call.
  rewrite homa_reply_connected_run, homa_reply_run.
  rewrite homa_send_connected_run, homa_send_run. cbv zeta.
  by rewrite null_guard.
Qed.

End Claims.

(** ** The library on the model engine *)

Lemma foldr_max_bounds (l : list Z) (d : Z) :
  d <= foldr Z.max d l /\ forall x, x ∈ l -> x <= foldr Z.max d l.
Proof.
  induction l as [|y l [IHd IHl]]; simpl.
  - split; [lia|]. intros x Hx. by apply elem_of_nil in Hx.
  - split; [lia|]. intros x Hx. apply elem_of_cons in Hx as [->|Hx].
    + lia.
    + specialize (IHl x Hx). lia.
Qed.

Lemma fresh_fd_nonneg (socks : gmap Z Engine.socket) :
  0 <= Engine.fresh_fd socks.
Proof.
  unfold Engine.fresh_fd.
  pose proof (proj1 (foldr_max_bounds (elements (dom socks)) (-1))). lia.
Qed.

Lemma fresh_fd_above (socks : gmap Z Engine.socket) (fd : Z) :
  is_Some (socks !! fd) -> fd < Engine.fresh_fd socks.
Proof.
  intros Hfd. unfold Engine.fresh_fd.
  apply elem_of_dom, elem_of_elements in Hfd.
  pose proof (proj2 (foldr_max_bounds (elements (dom socks)) (-1)) fd Hfd).
  lia.
Qed.

Lemma fresh_fd_unused (socks : gmap Z Engine.socket) :
  socks !! Engine.fresh_fd socks = None.
Proof.
  destruct (socks !! Engine.fresh_fd socks) as [s|] eqn:Hs; [|done].
  assert (is_Some (socks !! Engine.fresh_fd socks)) as H by eauto.
  apply fresh_fd_above in H. lia.
Qed.

(** The model engine returns 0 or -1 from [sendmsg]. *)
Lemma engine_sendmsg_in_int (c1 c2 c3 : Z) :
  sendmsg_in_int (Engine.homa c1 c2 c3).
Proof.
  intros st sockfd hdr flags. simpl. unfold Engine.send.
  destruct (Engine.can_send _ _ _); [destruct (decide _)|];
    simpl; unfold fits_int, INT_MIN, INT_MAX; lia.
Qed.

(** C3: on the model engine, [homa_peeloff] on a listening socket returns a
    new socket, not negative and distinct from the listening socket, when the
    peer address and length are a live association of that socket; when they
    are not, it fails with an addressing error and the table of sockets is
    unchanged, so no socket was created. *)
Theorem peeloff_new_socket_or_addressing_error
    (HOMAIOCABORT IPPROTO_HOMA SO_HOMA_PEELOFF : Z) sockfd peer addrlen
    (w : world Engine.state) :
  Engine.sockets (kernel w) !! sockfd = Some Engine.Listening ->
  peeloff_outcome (kernel w) sockfd peer addrlen
    (homa_peeloff (Engine.homa HOMAIOCABORT IPPROTO_HOMA SO_HOMA_PEELOFF)
       IPPROTO_HOMA SO_HOMA_PEELOFF sockfd peer addrlen w).
Proof.
  intros Hlisten. rewrite homa_peeloff_run. cbv zeta. simpl k_getsockopt.
  unfold Engine.sockopt. rewrite !bool_decide_eq_true_2 by done. simpl andb.
  unfold Engine.peel_off, peeloff_outcome.
  destruct peer as [a|].
  - destruct (decide (Engine.live (kernel w) sockfd (Some a) addrlen))
      as [Hlive|Hdead]; eexists _, _; (split; [done|]); simpl.
    + split; [|done]. intros _.
      pose proof (fresh_fd_unused (Engine.sockets (kernel w))) as Hnew.
      split; [apply fresh_fd_nonneg|].
      split; [intros Heq; rewrite Heq, Hlisten in Hnew; discriminate|].
      split; [done|].
      split; [|by exists a].
      rewrite lookup_insert_ne; [done|].
      intros Heq. rewrite Heq, Hlisten in Hnew. discriminate.
    + split; [done|]. intros _. by repeat split.
  - eexists _, _. split; [done|]. simpl. split.
    + intros (a & Ha & _). discriminate.
    + intros _. by repeat split.
Qed.

(** ** Runs on the model engine *)

Section Examples.

Import Engine.

Local Abbreviation syscalls0 :=
  (syscalls_of homa0 abort_request homa_level peeloff_option).

(** A request to a peer on the listening socket: the engine assigns id 1001,
    which lands in the caller's cell at address 2000. *)
Example send_stores_engine_id :
  match homa_send homa0 3 500 4 (Some peer1) 28 2000 7 w0 with
  | Some (r, w) =>
      r = 0 /\ memory w !! 2000 = Some 1001 /\
      sent_ids (trace w) = [Some 0] /\ sent_cookies (trace w) = [Some 7]
  | None => False
  end.
Proof. vm_compute. by repeat split. Qed.

(** A request without an address on the listening socket is rejected, and
    the caller's cell stays unwritten. *)
Example send_failure_leaves_id :
  match homa_send homa0 3 500 4 None 0 2000 7 w0 with
  | Some (r, w) =>
      r = -1 /\ memory w !! 2000 = None /\
      errno (kernel w) = Some TransportRejected
  | None => False
  end.
Proof. vm_compute. by repeat split. Qed.

(** The narrowing of the [sendmsg] result to [int] is the identity on the
    values an engine returns, and only on those. *)
Example to_int_examples :
  to_int (-1) = -1 /\ to_int 0 = 0 /\ to_int INT_MAX = INT_MAX /\
  to_int (INT_MAX + 1) = INT_MIN.
Proof. by vm_compute. Qed.

(** Witness of C1, for a request on the listening socket 3. *)
Lemma request_id_is_assigned_by_engine_witness :
  request_outcome homa0 w0 3 (hdr1 500 4 (Some peer1) 28 0 7) 2000
    (homa_send homa0 3 500 4 (Some peer1) 28 2000 7 w0) /\
  request_outcome homa0 w0 3
    (hdrv [{| iov_base := 500; iov_len := 4 |};
           {| iov_base := 600; iov_len := 8 |}] 2 (Some peer1) 28 0 7) 2000
    (homa_sendv homa0 3
       [{| iov_base := 500; iov_len := 4 |};
        {| iov_base := 600; iov_len := 8 |}] 2 (Some peer1) 28 2000 7 w0).
Proof.
  apply (request_id_is_assigned_by_engine homa0).
  - apply engine_sendmsg_in_int.
  - unfold NULL. lia.
Defined.

(** Witness of C10, for an accepted request and for a rejected one. *)
Lemma null_id_pointer_is_never_written_witness :
  (untouched_outcome homa0 w0 3 (hdr1 500 4 (Some peer1) 28 0 7)
     (homa_send homa0 3 500 4 (Some peer1) 28 NULL 7 w0) /\
   untouched_outcome homa0 w0 3
     (hdrv [{| iov_base := 500; iov_len := 4 |}] 1 (Some peer1) 28 0 7)
     (homa_sendv homa0 3 [{| iov_base := 500; iov_len := 4 |}] 1
        (Some peer1) 28 NULL 7 w0)) /\
  (untouched_outcome homa0 w0 3 (hdr1 500 4 None 0 0 7)
     (homa_send homa0 3 500 4 None 0 NULL 7 w0) /\
   untouched_outcome homa0 w0 3
     (hdrv [{| iov_base := 500; iov_len := 4 |}] 1 None 0 0 7)
     (homa_sendv homa0 3 [{| iov_base := 500; iov_len := 4 |}] 1
        None 0 NULL 7 w0)).
Proof.
  split.
  - apply (null_id_pointer_is_never_written homa0), engine_sendmsg_in_int.
  - apply (null_id_pointer_is_never_written homa0), engine_sendmsg_in_int.
Defined.

(** Witness of C3: peer1 is a live association of the listening socket 3. *)
Lemma peeloff_new_socket_or_addressing_error_witness :
  peeloff_outcome (kernel w0) 3 (Some peer1) 28
    (homa_peeloff homa0 homa_level peeloff_option 3 (Some peer1) 28 w0).
Proof.
  apply (peeloff_new_socket_or_addressing_error
           abort_request homa_level peeloff_option 3 (Some peer1) 28 w0).
  reflexivity.
Defined.

(** Peeling off the live peer gives descriptor 5; an unknown peer gives -1,
    an addressing error and the same two sockets. *)
Example peeloff_examples :
  match homa_peeloff homa0 homa_level peeloff_option 3 (Some peer1) 28 w0,
        homa_peeloff homa0 homa_level peeloff_option 3 (Some peer2) 28 w0 with
  | Some (r1, w1), Some (r2, w2) =>
      r1 = 5 /\ sockets (kernel w1) !! 5 = Some (PeeledOff peer1) /\
      r2 = -1 /\ errno (kernel w2) = Some AddressingError /\
      sockets (kernel w2) = sockets st0
  | _, _ => False
  end.
Proof. vm_compute. by repeat split. Qed.

(** C2, as stated, fails for [homa_send_connected]: on the peeled-off socket
    4, [homa_send] without an address passes the caller's cookie 7 to
    [sendmsg] and stores the new id 1001 at the caller's address 2000, while
    [homa_send_connected] passes cookie 0 and stores nothing; no value of
    [flags] makes the two agree. *)
Lemma send_connected_has_no_cookie_and_no_id :
  sent_cookies (syscalls0 (Send 4 500 4 None 0 NULL 7) w0) = [Some 7] /\
  sent_cookies (syscalls0 (SendConnected 4 500 4 0) w0) = [Some 0] /\
  (forall flags,
     homa_send_connected homa0 4 500 4 flags w0 <>
     homa_send homa0 4 500 4 None 0 NULL 7 w0) /\
  (snd <$> homa_send homa0 4 500 4 None 0 2000 0 w0) ≫= (fun w => memory w !! 2000)
    = Some 1001 /\
  (snd <$> homa_send_connected homa0 4 500 4 0 w0) ≫= (fun w => memory w !! 2000)
    = None /\
  (forall flags,
     homa_send_connected homa0 4 500 4 flags w0 <>
     homa_send homa0 4 500 4 None 0 2000 0 w0).
Proof.
  split; [by vm_compute|]. split; [by vm_compute|].
  split; [intros flags H; vm_compute in H; discriminate|].
  split; [by vm_compute|]. split; [by vm_compute|].
  intros flags H. vm_compute in H. discriminate.
Qed.

End Examples.

(** ** Further properties of the library, against any engine *)

Lemma to_int_congruent (x : Z) : (to_int x - x) mod 2 ^ 32 = 0.
Proof.
  unfold to_int, wrap_signed. change (2 ^ (32 - 1)) with 2147483648.
  change (2 ^ 32) with 4294967296. Z.div_mod_to_equations. lia.
Qed.

Lemma to_int_above (x : Z) :
  INT_MAX < x < 2 ^ 32 -> to_int x = x - 2 ^ 32 /\ x - 2 ^ 32 < 0.
Proof.
  unfold INT_MAX, to_int, wrap_signed. change (2 ^ (32 - 1)) with 2147483648.
  change (2 ^ 31) with 2147483648. change (2 ^ 32) with 4294967296.
  intros H. Z.div_mod_to_equations. lia.
Qed.

Lemma to_size_t_int (n : Z) :
  fits_int n -> to_size_t n = if decide (0 <= n) then n else n + 2 ^ 64.
Proof.
  unfold fits_int, INT_MIN, INT_MAX, to_size_t, wrap_unsigned.
  change (2 ^ 31) with 2147483648. change (2 ^ 64) with 18446744073709551616.
  intros H. destruct (decide (0 <= n)); Z.div_mod_to_equations; lia.
Qed.

Lemma issued_extends {K : Type} (w w' : world K) (cs : list syscall) :
  trace w' = trace w ++ cs -> issued w w' = cs.
Proof. unfold issued. intros ->. apply drop_app_length. Qed.

Section Extras.

Context {K : Type}.
Variable E : engine K.
Variables HOMAIOCABORT IPPROTO_HOMA SO_HOMA_PEELOFF : Z.

Local Abbreviation syscalls :=
  (syscalls_of E HOMAIOCABORT IPPROTO_HOMA SO_HOMA_PEELOFF).
Local Abbreviation call' := (call E HOMAIOCABORT IPPROTO_HOMA SO_HOMA_PEELOFF).

Create Rewrite HintDb homa_run.
#[local] Hint Rewrite (homa_reply_run E) (homa_replyv_run E) (homa_send_run E)
  (homa_sendv_run E) (homa_abort_run E) (homa_reply_connected_run E)
  (homa_send_connected_run E) (homa_peeloff_run E) : homa_run.

(** One API call in the model, where every address but [NULL] is a cell of
    the caller: it adds one system call to the log, the one that serves it,
    and changes no cell of the caller's memory but the one it may write. *)
Lemma call_step (c : api_call) (w : world K) :
  exists r w1 e,
    call' c w = Some (r, w1) /\
    trace w1 = trace w ++ [e] /\
    serves c e = true /\
    forall p, written_cell c <> Some p -> memory w1 !! p = memory w !! p.
Proof.
  destruct c; cbn [call]; autorewrite with homa_run; cbv zeta;
    eexists _, _, _; (split; [reflexivity|]);
    (split; [reflexivity|]);
    (split; [apply andb_true_iff; split;
               [by apply bool_decide_eq_true_2 | reflexivity]|]);
    simpl; try done.
  - intros p Hp. destruct (_ && _) eqn:Hst; [|done].
    apply andb_true_iff in Hst as [_ Hid%bool_decide_eq_true].
    rewrite decide_False in Hp by done.
    apply lookup_insert_ne. congruence.
  - intros p Hp. destruct (_ && _) eqn:Hst; [|done].
    apply andb_true_iff in Hst as [_ Hid%bool_decide_eq_true].
    rewrite decide_False in Hp by done.
    apply lookup_insert_ne. congruence.
Qed.

(** X1: each of the six send functions returns the result of its one
    [sendmsg] call narrowed to [int] (also [homa_reply], [homa_replyv] and
    [homa_reply_connected], which are declared [ssize_t]): the value returned
    lies in the range of [int] and differs from the [sendmsg] result by a
    multiple of 2^32, and the engine is left as [sendmsg] left it. *)
Theorem send_results_are_narrowed (c : api_call) (w : world K) :
  is_abort c = false -> is_peeloff c = false ->
  exists hdr r w',
    syscalls c w = [Sendmsg (call_sockfd c) hdr 0] /\
    call' c w = Some (r, w') /\
    let out := k_sendmsg E (kernel w) (call_sockfd c) hdr 0 in
    r = to_int (sm_ret out) /\
    kernel w' = sm_kernel out /\
    fits_int r /\
    (r - sm_ret out) mod 2 ^ 32 = 0.
Proof.
  intros Ha Hp. rewrite syscalls_of_call.
  destruct c; try discriminate; cbn [call]; autorewrite with homa_run;
    cbv zeta; eexists _, _, _; (split; [reflexivity|]);
    (split; [reflexivity|]); simpl;
    (split; [reflexivity|]); (split; [reflexivity|]);
    (split; [apply to_int_range | apply to_int_congruent]).
Qed.

(** X2: when [sendmsg] reports a count above [INT_MAX] (and below 2^32),
    [homa_send] and [homa_sendv] return it as a negative number and do not
    store the id the engine assigned, although [sendmsg] did not fail. *)
Theorem id_lost_when_result_exceeds_int sockfd message_buf length iov iovcnt
    dest_addr addrlen idp cookie (w : world K) :
  let h1 := hdr1 message_buf length dest_addr addrlen 0 cookie in
  let hv := hdrv iov iovcnt dest_addr addrlen 0 cookie in
  let out1 := k_sendmsg E (kernel w) sockfd h1 0 in
  let outv := k_sendmsg E (kernel w) sockfd hv 0 in
  (INT_MAX < sm_ret out1 < 2 ^ 32 ->
   exists w',
     homa_send E sockfd message_buf length dest_addr addrlen idp cookie w
       = Some (sm_ret out1 - 2 ^ 32, w') /\
     sm_ret out1 - 2 ^ 32 < 0 /\ memory w' = memory w) /\
  (INT_MAX < sm_ret outv < 2 ^ 32 ->
   exists w',
     homa_sendv E sockfd iov iovcnt dest_addr addrlen idp cookie w
       = Some (sm_ret outv - 2 ^ 32, w') /\
     sm_ret outv - 2 ^ 32 < 0 /\ memory w' = memory w).
Proof.
  intros h1 hv out1 outv. split; intros [Hto Hneg]%to_int_above.
  - rewrite homa_send_run. cbv zeta. fold h1 out1. rewrite Hto.
    rewrite (bool_decide_eq_false_2 (0 <= _)) by lia.
    eexists. by repeat split.
  - rewrite homa_sendv_run. cbv zeta. fold hv outv. rewrite Hto.
    rewrite (bool_decide_eq_false_2 (0 <= _)) by lia.
    eexists. by repeat split.
Qed.

(** X3: a reply, a request, an abort or a connected send that returns
    has changed at most one cell of the caller's memory: the one a request's
    id pointer names, when that pointer is not [NULL].  Replies, aborts,
    connected sends and requests with a [NULL] id pointer leave the caller's
    memory as it was. *)
Theorem calls_write_at_most_the_id_cell (c : api_call) (w w' : world K)
    (r : Z) :
  call' c w = Some (r, w') ->
  is_peeloff c = false ->
  (forall p, written_cell c <> Some p -> memory w' !! p = memory w !! p) /\
  (written_cell c = None -> memory w' = memory w).
Proof.
  intros Hrun _.
  destruct (call_step c w) as (r1 & w1 & e & Hrun1 & _ & _ & Hframe).
  rewrite Hrun in Hrun1. injection Hrun1 as _ <-.
  split; [done|].
  intros Hnone. apply map_eq. intros p. apply Hframe. by rewrite Hnone.
Qed.

(** The steps of a caller that makes the calls [cs] in a row. *)
Lemma run_all_steps (cs : list api_call) (w : world K) :
  exists rs w',
    run_all E HOMAIOCABORT IPPROTO_HOMA SO_HOMA_PEELOFF cs w = Some (rs, w') /\
    length rs = length cs /\
    trace w' = trace w ++ issued w w' /\
    Forall2 (fun c e => serves c e = true) cs (issued w w').
Proof.
  revert w. induction cs as [|c cs IH]; intros w.
  - exists [], w. split; [done|]. split; [done|].
    rewrite (issued_extends w w []) by (by rewrite app_nil_r).
    split; [by rewrite app_nil_r|constructor].
  - destruct (call_step c w) as (r & w1 & e & Hrun & Htr & Hserves & _).
    destruct (IH w1) as (rs & w' & Hrest & Hlen & Htr' & Hall).
    exists (r :: rs), w'. cbn [run_all]. unfold bind at 1. rewrite Hrun.
    unfold bind at 1. rewrite Hrest. unfold ret.
    assert (trace w' = trace w ++ e :: issued w1 w') as Hfull.
    { rewrite Htr', Htr, <- app_assoc. done. }
    rewrite (issued_extends w w' _ Hfull).
    split; [done|]. split; [simpl; by rewrite Hlen|].
    split; [done|]. by constructor.
Qed.

(** X4: when a caller has made [n] API calls in a row and all of them
    returned, it has [n] results and exactly [n] system calls were issued, in
    the order of the calls, each the one that serves its call ([ioctl] for an
    abort, [getsockopt] for a peel-off, [sendmsg] with flags 0 otherwise, on
    the socket of the call); what was logged before stays.  No call is
    skipped and none is repeated. *)
Theorem run_all_issues_one_syscall_per_call (cs : list api_call)
    (w w' : world K) (rs : list Z) :
  run_all E HOMAIOCABORT IPPROTO_HOMA SO_HOMA_PEELOFF cs w = Some (rs, w') ->
  length rs = length cs /\
  trace w' = trace w ++ issued w w' /\
  Forall2 (fun c e => serves c e = true) cs (issued w w').
Proof.
  intros Hrun.
  destruct (run_all_steps cs w) as (rs1 & w1 & Hrun1 & Hsteps).
  rewrite Hrun in Hrun1. by injection Hrun1 as <- <-.
Qed.

(** X5: [homa_sendv] and [homa_replyv] hand the array and the count to
    [sendmsg] without checking one against the other: the array is passed as
    it is, and the [int] count converted to [size_t], so that a negative
    count arrives as the count plus 2^64. *)
Theorem iovcnt_is_passed_unchecked sockfd iov iovcnt dest_addr addrlen id idp
    cookie (w : world K) :
  fits_int iovcnt ->
  let n := if decide (0 <= iovcnt) then iovcnt else iovcnt + 2 ^ 64 in
  map iov_of (syscalls (Sendv sockfd iov iovcnt dest_addr addrlen idp cookie) w)
    = [Some (iov, n)] /\
  map iov_of (syscalls (Replyv sockfd iov iovcnt dest_addr addrlen id) w)
    = [Some (iov, n)].
Proof.
  intros Hcnt n. rewrite !syscalls_of_call. simpl.
  by rewrite (to_size_t_int _ Hcnt).
Qed.

(** X6: after a [homa_send] that returned a result that is not negative
    through an id pointer that is not [NULL], the caller's cell holds the id
    the engine put in the control block, and a [homa_abort] of the id read
    from that cell passes exactly this id to [ioctl]; the log then holds the
    [sendmsg] and the [ioctl], and the abort leaves the cell as it is. *)
Theorem abort_targets_the_assigned_id sockfd message_buf length dest_addr
    addrlen idp cookie error r (w w1 : world K) :
  homa_send E sockfd message_buf length dest_addr addrlen idp cookie w
    = Some (r, w1) ->
  0 <= r -> idp <> NULL ->
  let h1 := hdr1 message_buf length dest_addr addrlen 0 cookie in
  exists id r2 w2,
    memory w1 !! idp = Some id /\
    id = args_id (sm_control (k_sendmsg E (kernel w) sockfd h1 0)) /\
    homa_abort E HOMAIOCABORT sockfd id error w1 = Some (r2, w2) /\
    trace w2 = trace w ++
      [Sendmsg sockfd h1 0;
       Ioctl sockfd HOMAIOCABORT {| abort_id := id; abort_error := error |}] /\
    memory w2 = memory w1.
Proof.
  intros Hrun Hok Hidp h1. rewrite homa_send_run in Hrun. cbv zeta in Hrun.
  injection Hrun as Hr Hw1. fold h1 in Hr, Hw1. rewrite Hr in Hw1.
  rewrite (bool_decide_eq_true_2 _ Hok), (bool_decide_eq_true_2 _ Hidp)
    in Hw1.
  subst w1. eexists _, _, _. unfold after_sendmsg. simpl.
  split; [apply lookup_insert_eq|]. split; [done|].
  rewrite homa_abort_run. cbv zeta. simpl.
  split; [done|]. split; [by rewrite <- app_assoc|done].
Qed.

(** X8: a request that fails does not touch an id stored earlier: after
    a [homa_send] that succeeded and a second one through the same id
    pointer, the cell holds the id of the second request when that one
    succeeded, and still the id of the first when it failed. *)
Theorem failed_send_keeps_the_earlier_id sockfd message_buf length dest_addr
    addrlen idp cookie sockfd' message_buf' length' dest_addr' addrlen'
    cookie' r1 r2 (w w1 w2 : world K) :
  homa_send E sockfd message_buf length dest_addr addrlen idp cookie w
    = Some (r1, w1) ->
  homa_send E sockfd' message_buf' length' dest_addr' addrlen' idp cookie' w1
    = Some (r2, w2) ->
  0 <= r1 -> idp <> NULL ->
  let first := k_sendmsg E (kernel w) sockfd
                 (hdr1 message_buf length dest_addr addrlen 0 cookie) 0 in
  let second := k_sendmsg E (kernel w1) sockfd'
                  (hdr1 message_buf' length' dest_addr' addrlen' 0 cookie')
                  0 in
  memory w2 !! idp =
    Some (args_id (sm_control (if decide (0 <= r2) then second else first))).
Proof.
  intros Hrun1 Hrun2 Hok Hidp first second.
  rewrite homa_send_run in Hrun1, Hrun2. cbv zeta in Hrun1, Hrun2.
  injection Hrun2 as Hr2 Hw2. injection Hrun1 as Hr1 Hw1.
  fold first in Hr1, Hw1. fold second in Hr2, Hw2.
  rewrite Hr1 in Hw1. rewrite Hr2 in Hw2.
  rewrite (bool_decide_eq_true_2 _ Hok), (bool_decide_eq_true_2 _ Hidp)
    in Hw1.
  rewrite (bool_decide_eq_true_2 _ Hidp), andb_true_r in Hw2.
  subst w2. unfold after_sendmsg at 1. simpl.
  destruct (decide (0 <= r2)) as [Hok2|Hfail].
  - rewrite bool_decide_eq_true_2 by done. apply lookup_insert_eq.
  - rewrite bool_decide_eq_false_2 by done.
    subst w1. unfold after_sendmsg. simpl. apply lookup_insert_eq.
Qed.

End Extras.

(** ** Runs for the further properties *)

Section MoreExamples.

Import Engine.

Local Abbreviation big := (const_engine (2 ^ 31) 1001).

(** With an engine whose [sendmsg] reports 2^31 bytes, [homa_reply] returns
    [INT_MIN] and [homa_send] writes no id. *)
Example narrowing_examples :
  fst <$> homa_reply big 3 500 4 None 0 9 unit_world = Some INT_MIN /\
  (snd <$> homa_send big 3 500 4 None 0 2000 7 unit_world)
    ≫= (fun w => memory w !! 2000) = None /\
  (snd <$> homa_send (const_engine 0 1001) 3 500 4 None 0 2000 7 unit_world)
    ≫= (fun w => memory w !! 2000) = Some 1001.
Proof. by vm_compute. Qed.

Lemma send_results_are_narrowed_witness :
  exists hdr r w',
    syscalls_of big abort_request homa_level peeloff_option
      (Reply 3 500 4 None 0 9) unit_world
      = [Sendmsg (call_sockfd (Reply 3 500 4 None 0 9)) hdr 0] /\
    call big abort_request homa_level peeloff_option
      (Reply 3 500 4 None 0 9) unit_world = Some (r, w') /\
    let out := k_sendmsg big (kernel unit_world)
                 (call_sockfd (Reply 3 500 4 None 0 9)) hdr 0 in
    r = to_int (sm_ret out) /\
    kernel w' = sm_kernel out /\
    fits_int r /\
    (r - sm_ret out) mod 2 ^ 32 = 0.
Proof.
  apply (send_results_are_narrowed big abort_request homa_level
           peeloff_option (Reply 3 500 4 None 0 9) unit_world);
    reflexivity.
Defined.

Lemma id_lost_when_result_exceeds_int_witness :
  (exists w',
     homa_send big 3 500 4 None 0 2000 7 unit_world
       = Some (2 ^ 31 - 2 ^ 32, w') /\
     2 ^ 31 - 2 ^ 32 < 0 /\ memory w' = memory unit_world) /\
  (exists w',
     homa_sendv big 3 [{| iov_base := 500; iov_len := 4 |}] 1 None 0 2000 7
       unit_world
       = Some (2 ^ 31 - 2 ^ 32, w') /\
     2 ^ 31 - 2 ^ 32 < 0 /\ memory w' = memory unit_world).
Proof.
  pose proof (id_lost_when_result_exceeds_int big 3 500 4
                [{| iov_base := 500; iov_len := 4 |}] 1 None 0 2000 7
                unit_world) as [H1 Hv].
  split; [apply H1 | apply Hv]; simpl; unfold INT_MAX; lia.
Defined.

Lemma iovcnt_is_passed_unchecked_witness :
  map iov_of
      (syscalls_of homa0 abort_request homa_level peeloff_option
         (Sendv 3 [] (-1) (Some peer1) 28 2000 7) w0)
    = [Some ([], 2 ^ 64 - 1)] /\
  map iov_of
      (syscalls_of homa0 abort_request homa_level peeloff_option
         (Replyv 3 [] (-1) (Some peer1) 28 1001) w0)
    = [Some ([], 2 ^ 64 - 1)].
Proof.
  apply (iovcnt_is_passed_unchecked homa0 abort_request homa_level
           peeloff_option 3 [] (-1) (Some peer1) 28 1001 2000 7 w0).
  unfold fits_int, INT_MIN, INT_MAX. lia.
Defined.

Lemma abort_targets_the_assigned_id_witness :
  let h1 := hdr1 500 4 (Some peer1) 28 0 7 in
  let w1 := after_sendmsg homa0 w0 3 h1 true 2000 in
  exists id r2 w2,
    memory w1 !! 2000 = Some id /\
    id = args_id (sm_control (k_sendmsg homa0 (kernel w0) 3 h1 0)) /\
    homa_abort homa0 abort_request 3 id 0 w1 = Some (r2, w2) /\
    trace w2 = trace w0 ++
      [Sendmsg 3 h1 0;
       Ioctl 3 abort_request {| abort_id := id; abort_error := 0 |}] /\
    memory w2 = memory w1.
Proof.
  intros h1 w1.
  apply (abort_targets_the_assigned_id homa0 abort_request 3 500 4
           (Some peer1) 28 2000 7 0 0 w0 w1).
  - reflexivity.
  - lia.
  - unfold NULL. lia.
Defined.

(** On the model engine the abort of the id just assigned ends the RPC. *)
Example send_then_abort_example :
  match homa_send homa0 3 500 4 (Some peer1) 28 2000 7 w0 with
  | Some (_, w1) =>
      active (kernel w1)
        = [{| rpc_socket := 3; rpc_id := 1001; rpc_cookie := 7 |}] /\
      match homa_abort homa0 abort_request 3 1001 0 w1 with
      | Some (r, w2) => r = 0 /\ active (kernel w2) = []
      | None => False
      end
  | None => False
  end.
Proof. vm_compute. by repeat split. Qed.

Lemma failed_send_keeps_the_earlier_id_witness :
  let h1 := hdr1 500 4 (Some peer1) 28 0 7 in
  let h2 := hdr1 600 8 None 0 0 9 in
  let w1 := after_sendmsg homa0 w0 3 h1 true 2000 in
  let w2 := after_sendmsg homa0 w1 3 h2 false 2000 in
  memory w2 !! 2000 =
    Some (args_id
            (sm_control
               (if decide (0 <= -1) then k_sendmsg homa0 (kernel w1) 3 h2 0
                else k_sendmsg homa0 (kernel w0) 3 h1 0))).
Proof.
  intros h1 h2 w1 w2.
  apply (failed_send_keeps_the_earlier_id homa0 3 500 4 (Some peer1) 28 2000
           7 3 600 8 None 0 9 0 (-1) w0 w1 w2).
  - reflexivity.
  - reflexivity.
  - lia.
  - unfold NULL. lia.
Defined.

(** The cell keeps id 1001 when a second request through it is rejected. *)
Example failed_send_example :
  match (homa_send homa0 3 500 4 (Some peer1) 28 2000 7 ;;;
         homa_send homa0 3 600 8 None 0 2000 9) w0 with
  | Some (r, w) => r = -1 /\ memory w !! 2000 = Some 1001
  | None => False
  end.
Proof. vm_compute. by split. Qed.

Lemma calls_write_at_most_the_id_cell_witness :
  let c := Send 3 500 4 (Some peer1) 28 2000 7 in
  let w' := after_sendmsg homa0 w0 3 (hdr1 500 4 (Some peer1) 28 0 7) true
              2000 in
  (forall p, written_cell c <> Some p -> memory w' !! p = memory w0 !! p) /\
  (written_cell c = None -> memory w' = memory w0).
Proof.
  intros c w'.
  apply (calls_write_at_most_the_id_cell homa0 abort_request homa_level
           peeloff_option c w0 w' 0).
  - reflexivity.
  - reflexivity.
Defined.

Lemma run_all_issues_one_syscall_per_call_witness :
  let cs := [Send 3 500 4 (Some peer1) 28 2000 7; Abort 3 0 0;
             Peeloff 3 (Some peer1) 28] in
  exists rs w',
    run_all homa0 abort_request homa_level peeloff_option cs w0
      = Some (rs, w') /\
    length rs = length cs /\
    trace w' = trace w0 ++ issued w0 w' /\
    Forall2 (fun c e => serves c e = true) cs (issued w0 w').
Proof.
  intros cs. eexists _, _. split.
  - vm_compute. reflexivity.
  - apply (run_all_issues_one_syscall_per_call homa0 abort_request homa_level
             peeloff_option cs w0).
    vm_compute. reflexivity.
Defined.

(** A request, an abort of everything and a peel-off, in a row. *)
Example run_all_example :
  match run_all homa0 abort_request homa_level peeloff_option
          [Send 3 500 4 (Some peer1) 28 2000 7; Abort 3 0 0;
           Peeloff 3 (Some peer1) 28] w0 with
  | Some (rs, w) =>
      rs = [0; 0; 5] /\ map syscall_sockfd (trace w) = [3; 3; 3] /\
      map is_sendmsg (trace w) = [true; false; false] /\
      map is_ioctl (trace w) = [false; true; false]
  | None => False
  end.
Proof. vm_compute. by repeat split. Qed.

End MoreExamples.
